(** * containerd archive/compression: detection and stream adapters

    A shallow embedding of
    [vendor/github.com/containerd/containerd/archive/compression/compression.go].

    - [Compression] is Go's [int]-based enumeration, kept as an integer so that
      values outside the two declared constants can be discussed.
    - byte slices are [list byte];
    - [DetectCompression] ranges over a Go map literal; the order of a [range]
      over a map is unspecified, so the loop body is embedded as a function of
      the visiting order ([detect_range]) and [DetectCompression] fixes one.
    - [DecompressStream] works on heap objects (a pooled [*bufio.Reader], a
      [*gzip.Reader]) and on the process-wide [sync.Pool]; these are threaded
      through a state monad whose failure case stands for a Go run-time panic.
    - the gzip codec lives in Go's standard library: it is a parameter. *)

From Stdlib Require Import Strings.Byte.
From stdpp Require Import base numbers list strings gmap.

Local Open Scope Z_scope.

(** ** The Compression enumeration (compression.go, lines 28-38) *)

Definition Compression : Type := Z.

Definition Uncompressed : Compression := 0.
Definition Gzip : Compression := 1.

(** Extension (lines 147-153): a switch with a single case. *)
Definition Extension (compression : Compression) : string :=
  if compression =? Gzip then "gz" else EmptyString.

(** ** Byte slices *)

(** [bytes.Equal]: same length and same contents. *)
Fixpoint bytes_Equal (a b : list byte) : bool :=
  match a, b with
  | [], [] => true
  | x :: a', y :: b' => Byte.eqb x y && bytes_Equal a' b'
  | _, _ => false
  end.

(** ** DetectCompression (lines 83-96) *)

(** The map literal the loop ranges over: one entry. *)
Definition signatures : list (Compression * list byte) :=
  [ (Gzip, [x1f; x8b; x08]) ].

(** The loop, for the entries in the order the runtime visits them. *)
Fixpoint detect_range (entries : list (Compression * list byte))
    (source : list byte) : Compression :=
  match entries with
  | [] => Uncompressed
  | (compression, m) :: rest =>
      if (length source <? length m)%nat then detect_range rest source
      else if bytes_Equal m (take (length m) source) then compression
      else detect_range rest source
  end.

Definition DetectCompression (source : list byte) : Compression :=
  detect_range signatures source.

(** A signature matches a slice when the loop body would return on it. *)
Definition matches (m source : list byte) : Prop :=
  (length m <= length source)%nat /\ take (length m) source = m.

(** No two entries of different kinds can match one slice. *)
Definition unambiguous (entries : list (Compression * list byte)) : Prop :=
  forall c1 m1 c2 m2 source,
    (c1, m1) ∈ entries -> (c2, m2) ∈ entries ->
    matches m1 source -> matches m2 source -> c1 = c2.

(** ** Errors and streams *)

(** Go's [error] values as this package meets them: the sentinel [io.EOF],
    compared by identity at line 103, and errors that carry a message. A nil
    error is [None]. *)
Inductive error : Type :=
  | io_EOF
  | errorString (msg : string).

(** [fmt.Errorf] with a single [%s] verb at the end of the format. *)
Definition fmt_Errorf (format_prefix arg : string) : error :=
  errorString (format_prefix +:+ arg).

(** An [io.Reader], by what it will deliver: the bytes still to come and the
    error it reports once they are exhausted ([io_EOF] for a clean end). *)
Record io_Reader : Type := { pending : list byte; final : error }.

(** [bytes.NewReader]: a reader over a slice, ending in [io.EOF]. *)
Definition bytes_NewReader (b : list byte) : io_Reader :=
  {| pending := b; final := io_EOF |}.

(** ** The heap, the pool and the monad *)

Abbreviation loc := nat.

(** A [bufio.Reader] is either bound to an underlying reader or detached
    (the state [NewReaderSize(nil, _)] and [Reset(nil)] leave it in). What it
    holds in its buffer and what its reader has yet to produce are seen as
    one stream. Its 32 KiB capacity is above every peek made here and is not
    represented. *)
Record bufio_Reader : Type := { rd : option io_Reader }.

(** A [gzip.Reader]: the buffered reader it decodes from and the sticky
    error of its decompressor. *)
Record gzip_Reader : Type := { z_r : loc; z_err : option error }.

Record state : Type := {
  bufs : gmap loc bufio_Reader;
  gzips : gmap loc gzip_Reader;
  bufioReader32KPool : list loc   (* the pool's inventory, last released first *)
}.

Definition empty_state : state :=
  {| bufs := ∅; gzips := ∅; bufioReader32KPool := [] |}.

(** In-place updates. *)
Definition upd_buf (a : loc) (b : bufio_Reader) (σ : state) : state :=
  {| bufs := <[a := b]> (bufs σ); gzips := gzips σ;
     bufioReader32KPool := bufioReader32KPool σ |}.

Definition upd_gzip (g : loc) (z : gzip_Reader) (σ : state) : state :=
  {| bufs := bufs σ; gzips := <[g := z]> (gzips σ);
     bufioReader32KPool := bufioReader32KPool σ |}.

Definition upd_pool (p : list loc) (σ : state) : state :=
  {| bufs := bufs σ; gzips := gzips σ; bufioReader32KPool := p |}.

(** Computations over the state; [None] is a run-time panic. *)
Definition M (A : Type) : Type := state -> option (A * state).

#[global] Instance M_ret : MRet M := fun A x σ => Some (x, σ).
#[global] Instance M_bind : MBind M := fun A B k m σ =>
  match m σ with
  | Some (x, σ') => k x σ'
  | None => None
  end.

Definition panic {A : Type} : M A := fun _ => None.

Definition load_buf (a : loc) : M bufio_Reader := fun σ =>
  match bufs σ !! a with
  | Some b => Some (b, σ)
  | None => None
  end.

Definition store_buf (a : loc) (b : bufio_Reader) : M unit := fun σ =>
  Some (tt, upd_buf a b σ).

Definition load_gzip (g : loc) : M gzip_Reader := fun σ =>
  match gzips σ !! g with
  | Some z => Some (z, σ)
  | None => None
  end.

Definition store_gzip (g : loc) (z : gzip_Reader) : M unit := fun σ =>
  Some (tt, upd_gzip g z σ).

(** ** bufio.Reader *)

(** [bufio.NewReaderSize(nil, 32*1024)], the pool's [New] (lines 41-43). *)
Definition bufio_NewReaderSize_nil : M loc := fun σ =>
  let a := fresh (dom (bufs σ)) in
  Some (a, upd_buf a {| rd := None |} σ).

(** [b.Reset(r)]: drops everything buffered and binds [b] to [r]. *)
Definition bufio_Reset (a : loc) (r : option io_Reader) : M unit :=
  store_buf a {| rd := r |}.

(** The slice and error [Peek(n)] returns on a stream: [n] bytes when they
    are there, otherwise what there is and the stream's error. *)
Definition peek (n : nat) (s : io_Reader) : list byte * option error :=
  if (n <=? length (pending s))%nat then (take n (pending s), None)
  else (pending s, Some (final s)).

(** [b.Peek(n)]: nothing is consumed. Peeking a detached reader calls a
    method of a nil interface. *)
Definition bufio_Peek (a : loc) (n : nat) : M (list byte * option error) :=
  b ← load_buf a;
  match rd b with
  | Some s => mret (peek n s)
  | None => panic
  end.

(** ** sync.Pool *)

(** [bufioReader32KPool.Get()]: a released reader when there is one, a new
    one otherwise. The Go runtime may also drop pooled objects or pass the
    inventory over; the inventory here is the run in which it does neither,
    and what is proved below about a call is stated relative to the reader
    and the pool that its own [Get] produced. *)
Definition Pool_Get : M loc := fun σ =>
  match bufioReader32KPool σ with
  | a :: rest => Some (a, upd_pool rest σ)
  | [] => bufio_NewReaderSize_nil σ
  end.

Definition Pool_Put (a : loc) : M unit := fun σ =>
  Some (tt, upd_pool (a :: bufioReader32KPool σ) σ).

(** ** The wrappers (lines 46-80) *)

(** What the embedded [io.Reader] of a [readCloserWrapper] is in this
    package: the pooled buffered reader itself, or a gzip reader. *)
Inductive Reader_impl : Type :=
  | R_bufio (buf : loc)
  | R_gzip (gzReader : loc).

Record readCloserWrapper : Type := {
  Reader : Reader_impl;
  compression : Compression;
  closer : option (M (option error))    (* func() error, nil when [None] *)
}.

(** readCloserWrapper.Close (lines 59-64). *)
Definition Close (r : readCloserWrapper) : M (option error) :=
  match closer r with
  | Some f => f
  | None => mret None
  end.

(** readCloserWrapper.GetCompression (lines 66-68). *)
Definition GetCompression (r : readCloserWrapper) : Compression :=
  compression r.

(** An [io.Writer] kept in memory: the bytes written so far. *)
Definition io_Writer : Type := list byte.

Record writeCloserWrapper : Type := {
  Writer : io_Writer;
  w_closer : option (unit -> option error)
}.

(** The embedded writer's [Write]: the whole slice is appended. *)
Definition Write (w : writeCloserWrapper) (p : list byte)
    : writeCloserWrapper * (nat * option error) :=
  ({| Writer := Writer w ++ p; w_closer := w_closer w |}, (length p, None)).

(** writeCloserWrapper.Close (lines 75-80): the closer's error is dropped. *)
Definition w_Close (w : writeCloserWrapper) : option error :=
  match w_closer w with
  | Some f => let _ := f tt in None
  | None => None
  end.

(** The [io.WriteCloser] values [CompressStream] can return. *)
Inductive io_WriteCloser : Type :=
  | WC_wrapper (w : writeCloserWrapper)
  | WC_gzip (dest : io_Writer).          (* gzip.NewWriter(dest) *)

(** ** CompressStream (lines 135-144) *)

Definition CompressStream (dest : io_Writer) (compression : Compression)
    : option io_WriteCloser * option error :=
  if compression =? Uncompressed then
    (Some (WC_wrapper {| Writer := dest; w_closer := None |}), None)
  else if compression =? Gzip then
    (Some (WC_gzip dest), None)
  else
    (None, Some (fmt_Errorf "unsupported compression format " (Extension compression))).

(** ** The gzip decoder, a collaborator *)

(** What this package relies on from [compress/gzip]: reading a header off a
    stream either fails or leaves the rest of the stream, and decoding the
    rest yields bytes and a final condition ([io_EOF] for a clean end). *)
Record gzip_codec : Type := {
  readHeader : io_Reader -> option error * io_Reader;
  inflate : io_Reader -> list byte * error * io_Reader
}.

(** [nil] for [io.EOF], as callers of a read-to-the-end see it. *)
Definition hide_EOF (e : error) : option error :=
  match e with
  | io_EOF => None
  | _ => Some e
  end.

(** A new [gzip.Reader] object. *)
Definition new_gzip_Reader (z : gzip_Reader) : M loc := fun σ =>
  let g := fresh (dom (gzips σ)) in
  Some (g, upd_gzip g z σ).

(** [Close] of a [gzip.Reader]: reports the decompressor's sticky error, a
    clean end excepted. Nothing in compression.go calls it. *)
Definition gzip_Reader_Close (g : loc) : M (option error) :=
  z ← load_gzip g;
  mret (from_option hide_EOF None (z_err z)).

Section Decompress.

Variable gz : gzip_codec.

(** [gzip.NewReader(buf)]: the header is read from [buf] at once. *)
Definition gzip_NewReader (buf : loc) : M (loc + error) :=
  b ← load_buf buf;
  match rd b with
  | None => panic
  | Some s =>
      store_buf buf {| rd := Some (readHeader gz s).2 |};;
      match (readHeader gz s).1 with
      | Some err => mret (inr err)
      | None =>
          g ← new_gzip_Reader {| z_r := buf; z_err := None |};
          mret (inl g)
      end
  end.

(** ** DecompressStream (lines 99-132) *)

Definition DecompressStream (archive : io_Reader)
    : M (option readCloserWrapper * option error) :=
  buf ← Pool_Get;
  bufio_Reset buf (Some archive);;
  '(bs, err) ← bufio_Peek buf 10;
  match err with
  | Some (errorString _) => mret (None, err)      (* err != nil && err != io.EOF *)
  | _ =>
      let closer : M (option error) :=
        bufio_Reset buf None;;
        Pool_Put buf;;
        mret None in
      let compression := DetectCompression bs in
      if compression =? Uncompressed then
        mret (Some {| Reader := R_bufio buf; compression := compression;
                      closer := Some closer |}, None)
      else if compression =? Gzip then
        r ← gzip_NewReader buf;
        match r with
        | inr err => mret (None, Some err)
        | inl gzReader =>
            mret (Some {| Reader := R_gzip gzReader; compression := compression;
                          closer := Some closer |}, None)
        end
      else
        mret (None, Some (fmt_Errorf "unsupported compression format "
                            (Extension compression)))
  end.

(** ** Reading a wrapper to its end ([io.ReadAll]) *)

Definition bufio_ReadAll (buf : loc) : M (list byte * option error) :=
  b ← load_buf buf;
  match rd b with
  | None => panic
  | Some s =>
      store_buf buf {| rd := Some {| pending := []; final := final s |} |};;
      mret (pending s, hide_EOF (final s))
  end.

Definition gzip_ReadAll (g : loc) : M (list byte * option error) :=
  z ← load_gzip g;
  match z_err z with
  | Some e => mret ([], hide_EOF e)
  | None =>
      b ← load_buf (z_r z);
      match rd b with
      | None => panic
      | Some s =>
          let '(out, e, s') := inflate gz s in
          (store_buf (z_r z) {| rd := Some s' |};;
           store_gzip g {| z_r := z_r z; z_err := Some e |};;
           mret (out, hide_EOF e))
      end
  end.

Definition ReadAll (r : readCloserWrapper) : M (list byte * option error) :=
  match Reader r with
  | R_bufio buf => bufio_ReadAll buf
  | R_gzip g => gzip_ReadAll g
  end.

End Decompress.

(** ** Names used in the statements *)

(** The closure built at lines 113-117, for the buffered reader [buf]. *)
Definition release (buf : loc) : M (option error) :=
  bufio_Reset buf None;;
  Pool_Put buf;;
  mret None.

(** What a caller obtains by writing [P] through the stream that
    [CompressStream] returns for Uncompressed on an empty destination, and
    closing it. *)
Definition written_Uncompressed (P : list byte) : option (list byte) :=
  match CompressStream [] Uncompressed with
  | (Some (WC_wrapper w), None) =>
      let w' := (Write w P).1 in
      match w_Close w' with
      | None => Some (Writer w')
      | Some _ => None
      end
  | _ => None
  end.

(** The round trip as C1 words it, for one payload and one starting state. *)
Definition roundtrip_Uncompressed (gz : gzip_codec) (P : list byte) (σ : state) : Prop :=
  exists out w σ1 σ2,
    written_Uncompressed P = Some out
    /\ DecompressStream gz (bytes_NewReader out) σ = Some ((Some w, None), σ1)
    /\ GetCompression w = Uncompressed
    /\ ReadAll gz w σ1 = Some ((P, None), σ2).

(** Release on the error path as C2 words it: after an error return the
    reader that was checked out is in the pool. *)
Definition released_on_error (gz : gzip_codec) (archive : io_Reader) (σ : state) : Prop :=
  forall r e σ',
    DecompressStream gz archive σ = Some ((r, Some e), σ') ->
    exists buf σ0, Pool_Get σ = Some (buf, σ0) /\ buf ∈ bufioReader32KPool σ'.

(** The close operation as C3 words it: close the decoder and keep its
    error, detach the buffered reader, put it back. *)
Definition Close_with_decoder (g buf : loc) : M (option error) :=
  e ← gzip_Reader_Close g;
  bufio_Reset buf None;;
  Pool_Put buf;;
  mret e.

(** C3 for one archive and one starting state: the stream is opened, read to
    its end, and closed. *)
Definition Close_closes_decoder (gz : gzip_codec) (archive : io_Reader) (σ : state) : Prop :=
  forall w σ1 out σ2,
    DecompressStream gz archive σ = Some ((Some w, None), σ1) ->
    GetCompression w = Gzip ->
    ReadAll gz w σ1 = Some (out, σ2) ->
    exists g z, Reader w = R_gzip g /\ gzips σ2 !! g = Some z
                /\ Close w σ2 = Close_with_decoder g (z_r z) σ2.

(** A stand-in decoder for running the adapters on concrete inputs: a header
    is ten bytes that start with the gzip signature, and the body is taken as
    stored data, an empty body being a truncated stream. *)
Definition stored_codec : gzip_codec := {|
  readHeader := fun s =>
    if (length (pending s) <? 10)%nat then
      (Some (errorString "unexpected EOF"), {| pending := []; final := final s |})
    else if bytes_Equal [x1f; x8b; x08] (take 3 (pending s)) then
      (None, {| pending := drop 10 (pending s); final := final s |})
    else
      (Some (errorString "gzip: invalid header"),
       {| pending := drop 10 (pending s); final := final s |});
  inflate := fun s =>
    match pending s with
    | [] => ([], errorString "unexpected EOF", s)
    | body => (body, final s, {| pending := []; final := final s |})
    end
|}.

(** A gzip header with nothing after it. *)
Definition truncated_gzip : list byte :=
  [x1f; x8b; x08; x00; x00; x00; x00; x00; x00; x03].

(** A reader whose first read fails. *)
Definition failing_reader : io_Reader :=
  {| pending := []; final := errorString "read failed" |}.

(** ** Callers and names used in the further properties *)

(** The slice starts with the three bytes of the gzip signature. *)
Definition gzip_signed (b : list byte) : bool :=
  bytes_Equal [x1f; x8b; x08] (take 3 b).

(** The error a reader makes the 10-byte peek fail with: fewer than ten
    bytes, then an error other than [io.EOF]. *)
Definition peek_error (archive : io_Reader) : option error :=
  if (length (pending archive) <? 10)%nat then
    match final archive with
    | errorString msg => Some (errorString msg)
    | io_EOF => None
    end
  else None.

(** The error an archive is refused with, read off the archive and the
    decoder alone. *)
Definition open_error (gz : gzip_codec) (archive : io_Reader) : option error :=
  match peek_error archive with
  | Some e => Some e
  | None =>
      if gzip_signed (pending archive) then (readHeader gz archive).1 else None
  end.



Section Callers.

Variable gz : gzip_codec.



End Callers.

(** * Properties *)

(** ** Byte slices and the detector *)

Lemma bytes_Equal_eq (a b : list byte) : bytes_Equal a b = true <-> a = b.
Proof.
  revert b; induction a as [|x a IH]; intros [|y b]; simpl; try (split; congruence).
  rewrite andb_true_iff, IH. split.
  - intros [Hxy ->]. apply Byte.byte_dec_bl in Hxy. by subst.
  - intros [= -> ->]. split; [apply Byte.byte_dec_lb|]; done.
Qed.

Lemma bytes_Equal_refl (a : list byte) : bytes_Equal a a = true.
Proof. by apply bytes_Equal_eq. Qed.

Lemma detect_range_cases entries source :
  (exists c m, (c, m) ∈ entries /\ matches m source /\ detect_range entries source = c)
  \/ ((forall c m, (c, m) ∈ entries -> ~ matches m source)
      /\ detect_range entries source = Uncompressed).
Proof.
  induction entries as [|[c m] rest IH]; simpl.
  - right. split; [|done]. intros c m Hin. by apply elem_of_nil in Hin.
  - destruct (Nat.ltb_spec (length source) (length m)) as [Hshort|Hlong].
    + destruct IH as [(c' & m' & Hin & Hm & Hd)|[Hno Hd]].
      * left. exists c', m'. rewrite elem_of_cons. auto.
      * right. split; [|done]. intros c' m' Hin [Hlen Heq].
        apply elem_of_cons in Hin as [[= -> ->]|Hin]; [lia|].
        by apply (Hno c' m' Hin).
    + destruct (bytes_Equal m (take (length m) source)) eqn:Heq.
      * left. exists c, m. rewrite elem_of_cons.
        apply bytes_Equal_eq in Heq. by repeat split; auto.
      * destruct IH as [(c' & m' & Hin & Hm & Hd)|[Hno Hd]].
        -- left. exists c', m'. rewrite elem_of_cons. auto.
        -- right. split; [|done]. intros c' m' Hin [Hlen Hm].
           apply elem_of_cons in Hin as [[= -> ->]|Hin].
           ++ rewrite Hm, bytes_Equal_refl in Heq. done.
           ++ by apply (Hno c' m' Hin).
Qed.

(** Every visiting order of an unambiguous table gives the same answer. *)
Lemma detect_range_order entries entries' source :
  unambiguous entries -> entries ≡ₚ entries' ->
  detect_range entries source = detect_range entries' source.
Proof.
  intros Hun Hperm.
  destruct (detect_range_cases entries source) as [(c & m & Hin & Hm & Hd)|[Hno Hd]];
    destruct (detect_range_cases entries' source) as [(c' & m' & Hin' & Hm' & Hd')|[Hno' Hd']].
  - rewrite Hd, Hd'. rewrite <- Hperm in Hin'. by eapply Hun.
  - rewrite Hperm in Hin. by destruct (Hno' c m Hin).
  - rewrite <- Hperm in Hin'. by destruct (Hno c' m' Hin').
  - congruence.
Qed.

Lemma signatures_unambiguous : unambiguous signatures.
Proof.
  intros c1 m1 c2 m2 source H1 H2 _ _.
  apply list_elem_of_singleton in H1, H2. congruence.
Qed.

(** What the loop computes on the built-in table. *)
Lemma DetectCompression_unfold source :
  DetectCompression source =
    if (length source <? 3)%nat then Uncompressed
    else if bytes_Equal [x1f; x8b; x08] (take 3 source) then Gzip
    else Uncompressed.
Proof. reflexivity. Qed.

Lemma DetectCompression_Gzip_iff source :
  DetectCompression source = Gzip <-> take 3 source = [x1f; x8b; x08].
Proof.
  rewrite DetectCompression_unfold.
  destruct (Nat.ltb_spec (length source) 3) as [Hshort|Hlong].
  - split; [done|]. intros Ht. apply (f_equal length) in Ht.
    rewrite length_take in Ht. change (length [x1f; x8b; x08]) with 3%nat in Ht. lia.
  - destruct (bytes_Equal _ _) eqn:Heq.
    + apply bytes_Equal_eq in Heq. by split.
    + split; [done|]. intros Ht. rewrite Ht, bytes_Equal_refl in Heq. done.
Qed.

Lemma DetectCompression_range source :
  DetectCompression source = Uncompressed \/ DetectCompression source = Gzip.
Proof.
  rewrite DetectCompression_unfold.
  destruct (_ <? _)%nat; [by left|]. destruct (bytes_Equal _ _); auto.
Qed.

Lemma DetectCompression_take source (n : nat) :
  (3 <= n)%nat -> DetectCompression (take n source) = DetectCompression source.
Proof.
  intros Hn. rewrite !DetectCompression_unfold.
  rewrite take_take, Nat.min_l by done. rewrite length_take.
  destruct (Nat.ltb_spec (length source) 3), (Nat.ltb_spec (n `min` length source) 3);
    try done; lia.
Qed.

(** An ambiguous table is where the visiting order would show. *)
Example detect_range_ambiguous :
  detect_range [(Gzip, [x1f]); (2, [x1f; x8b])] [x1f; x8b] = Gzip
  /\ detect_range [(2, [x1f; x8b]); (Gzip, [x1f])] [x1f; x8b] = 2.
Proof. split; reflexivity. Qed.

(** ** The detector, the extension table and the writer adapter *)

(** C4. Every slice that starts with the bytes 1F 8B 08 is detected as Gzip,
    whatever follows them and however long the slice is. *)
Theorem DetectCompression_gzip_prefix (rest : list byte) :
  DetectCompression (x1f :: x8b :: x08 :: rest) = Gzip.
Proof. apply DetectCompression_Gzip_iff. reflexivity. Qed.

(** C5. A slice of fewer than three bytes is shorter than every signature of
    the table, and the detector answers Uncompressed on it. *)
Theorem DetectCompression_short (source : list byte) :
  (length source < 3)%nat ->
  (forall c m, (c, m) ∈ signatures -> (length source < length m)%nat)
  /\ DetectCompression source = Uncompressed.
Proof.
  intros Hlen. split.
  - intros c m Hin. apply list_elem_of_singleton in Hin as [= -> ->]. exact Hlen.
  - rewrite DetectCompression_unfold.
    destruct (Nat.ltb_spec (length source) 3); [done|lia].
Qed.

Lemma DetectCompression_short_witness :
  (forall c m, (c, m) ∈ signatures -> (length [x1f; x8b] < length m)%nat)
  /\ DetectCompression [x1f; x8b] = Uncompressed.
Proof. apply (DetectCompression_short [x1f; x8b]). simpl. lia. Defined.

(** C8. Extension is a total function: gz for Gzip, the empty string for
    Uncompressed and for every other value of the integer type. *)
Theorem Extension_total :
  Extension Gzip = "gz"
  /\ Extension Uncompressed = EmptyString
  /\ forall c : Compression, c <> Gzip -> Extension c = EmptyString.
Proof.
  repeat split. intros c Hc. unfold Extension.
  destruct (Z.eqb_spec c Gzip); done.
Qed.

Lemma Extension_total_witness : Extension 7 = EmptyString.
Proof. apply (proj2 (proj2 Extension_total) 7). unfold Gzip. lia. Defined.

(** C7. For a kind that is neither Uncompressed nor Gzip, CompressStream
    returns no stream and an error whose message ends in the extension of the
    kind, which is the empty string for every such kind. *)
Theorem CompressStream_unsupported (dest : io_Writer) (c : Compression) :
  c <> Uncompressed -> c <> Gzip ->
  CompressStream dest c =
    (None, Some (errorString ("unsupported compression format " +:+ Extension c)))
  /\ Extension c = EmptyString
  /\ CompressStream dest c = (None, Some (errorString "unsupported compression format ")).
Proof.
  intros HU HG. unfold CompressStream, fmt_Errorf, Extension.
  destruct (Z.eqb_spec c Uncompressed); [done|].
  destruct (Z.eqb_spec c Gzip); done.
Qed.

Lemma CompressStream_unsupported_witness :
  CompressStream [x00] 2 =
    (None, Some (errorString ("unsupported compression format " +:+ Extension 2)))
  /\ Extension 2 = EmptyString
  /\ CompressStream [x00] 2 = (None, Some (errorString "unsupported compression format ")).
Proof.
  apply (CompressStream_unsupported [x00] 2); unfold Uncompressed, Gzip; lia.
Defined.

(** C9. Whatever order the range over the signature table takes, the answer
    is the same: any two orders agree, and agree with [DetectCompression]. *)
Theorem DetectCompression_order_independent
    (order1 order2 : list (Compression * list byte)) (source : list byte) :
  order1 ≡ₚ signatures -> order2 ≡ₚ signatures ->
  detect_range order1 source = detect_range order2 source
  /\ detect_range order1 source = DetectCompression source.
Proof.
  intros H1 H2. unfold DetectCompression. split.
  - transitivity (detect_range signatures source).
    + symmetry. by apply detect_range_order; [apply signatures_unambiguous|].
    + by apply detect_range_order; [apply signatures_unambiguous|].
  - symmetry. by apply detect_range_order; [apply signatures_unambiguous|].
Qed.

Lemma DetectCompression_order_independent_witness :
  detect_range signatures [x1f; x8b; x08; x00] = detect_range signatures [x1f; x8b; x08; x00]
  /\ detect_range signatures [x1f; x8b; x08; x00] = DetectCompression [x1f; x8b; x08; x00].
Proof.
  apply (DetectCompression_order_independent signatures signatures); reflexivity.
Defined.

(** ** The reader adapter *)

Section Adapter.

Variable gz : gzip_codec.

Lemma release_run buf σ :
  release buf σ =
    Some (None, upd_pool (buf :: bufioReader32KPool σ) (upd_buf buf {| rd := None |} σ)).
Proof. reflexivity. Qed.

Lemma Pool_Get_run σ :
  Pool_Get σ =
    match bufioReader32KPool σ with
    | a :: rest => Some (a, upd_pool rest σ)
    | [] => Some (fresh (dom (bufs σ)), upd_buf (fresh (dom (bufs σ))) {| rd := None |} σ)
    end.
Proof. unfold Pool_Get. by destruct (bufioReader32KPool σ). Qed.

Lemma Pool_Get_total σ : exists buf σ0, Pool_Get σ = Some (buf, σ0).
Proof. rewrite Pool_Get_run. destruct (bufioReader32KPool σ); eauto. Qed.

(** The checkout leaves the tail of the inventory and no gzip reader
    appears or disappears. *)
Lemma Pool_Get_frame σ buf σ0 :
  Pool_Get σ = Some (buf, σ0) ->
  bufioReader32KPool σ0 = tail (bufioReader32KPool σ) /\ gzips σ0 = gzips σ.
Proof.
  rewrite Pool_Get_run.
  destruct (bufioReader32KPool σ) eqn:Hp; intros [= <- <-]; simpl; by rewrite ?Hp.
Qed.

Lemma Pool_Get_NoDup σ buf σ0 :
  Pool_Get σ = Some (buf, σ0) -> NoDup (bufioReader32KPool σ) ->
  buf ∉ bufioReader32KPool σ0.
Proof.
  rewrite Pool_Get_run. destruct (bufioReader32KPool σ) as [|a rest] eqn:Hp.
  - intros [= <- <-] _. simpl. rewrite Hp. apply not_elem_of_nil.
  - intros [= <- <-] Hnd. simpl. by apply NoDup_cons in Hnd as [? _].
Qed.

Lemma bind_run {A B : Type} (m : M A) (k : A -> M B) σ :
  (m ≫= k) σ = match m σ with Some (x, σ') => k x σ' | None => None end.
Proof. reflexivity. Qed.

Lemma lookup_upd_buf a b σ : bufs (upd_buf a b σ) !! a = Some b.
Proof. apply lookup_insert_eq. Qed.

Lemma bufio_Reset_run a r σ :
  bufio_Reset a r σ = Some (tt, upd_buf a {| rd := r |} σ).
Proof. reflexivity. Qed.

Lemma bufio_Peek_attached a n s σ :
  bufs σ !! a = Some {| rd := Some s |} -> bufio_Peek a n σ = Some (peek n s, σ).
Proof.
  intros Hb. unfold bufio_Peek. rewrite bind_run. unfold load_buf. by rewrite Hb.
Qed.

Lemma gzip_NewReader_attached a s σ :
  bufs σ !! a = Some {| rd := Some s |} ->
  gzip_NewReader gz a σ =
    let σ2 := upd_buf a {| rd := Some (readHeader gz s).2 |} σ in
    match (readHeader gz s).1 with
    | Some e => Some (inr e, σ2)
    | None =>
        Some (inl (fresh (dom (gzips σ2))),
              upd_gzip (fresh (dom (gzips σ2))) {| z_r := a; z_err := None |} σ2)
    end.
Proof.
  intros Hb. unfold gzip_NewReader. rewrite bind_run. unfold load_buf. rewrite Hb.
  cbn [rd]. rewrite bind_run. unfold store_buf.
  destruct (readHeader gz s).1; reflexivity.
Qed.

(** One equation for the whole of [DecompressStream], from the checkout on. *)
Lemma DecompressStream_run archive σ buf σ0 :
  Pool_Get σ = Some (buf, σ0) ->
  let σ1 := upd_buf buf {| rd := Some archive |} σ0 in
  let kind := DetectCompression (peek 10 archive).1 in
  DecompressStream gz archive σ =
    match (peek 10 archive).2 with
    | Some (errorString msg) => Some ((None, Some (errorString msg)), σ1)
    | _ =>
        if kind =? Uncompressed then
          Some ((Some {| Reader := R_bufio buf; compression := kind;
                         closer := Some (release buf) |}, None), σ1)
        else if kind =? Gzip then
          let σ2 := upd_buf buf {| rd := Some (readHeader gz archive).2 |} σ1 in
          match (readHeader gz archive).1 with
          | Some e => Some ((None, Some e), σ2)
          | None =>
              let g := fresh (dom (gzips σ2)) in
              Some ((Some {| Reader := R_gzip g; compression := kind;
                             closer := Some (release buf) |}, None),
                    upd_gzip g {| z_r := buf; z_err := None |} σ2)
          end
        else
          Some ((None, Some (fmt_Errorf "unsupported compression format "
                               (Extension kind))), σ1)
    end.
Proof.
  intros HGet σ1 kind. subst σ1 kind.
  unfold DecompressStream.
  rewrite bind_run, HGet, bind_run, bufio_Reset_run, bind_run.
  rewrite (bufio_Peek_attached _ _ archive) by apply lookup_upd_buf.
  destruct (peek 10 archive) as [bs [[|msg]|]]; cbn [fst snd]; try reflexivity.
  all: destruct (DetectCompression bs =? Uncompressed); [reflexivity|].
  all: destruct (DetectCompression bs =? Gzip); [|reflexivity].
  all: rewrite bind_run, (gzip_NewReader_attached _ archive) by apply lookup_upd_buf.
  all: destruct (readHeader gz archive).1; reflexivity.
Qed.


(** C6. On a stream that ends at once, the peek returns no byte and
    end-of-stream, and DecompressStream returns, without an error, a stream
    whose kind is Uncompressed and whose content is empty. *)
Theorem DecompressStream_empty (σ : state) :
  peek 10 (bytes_NewReader []) = ([], Some io_EOF)
  /\ exists w σ1 σ2,
       DecompressStream gz (bytes_NewReader []) σ = Some ((Some w, None), σ1)
       /\ GetCompression w = Uncompressed
       /\ ReadAll gz w σ1 = Some (([], None), σ2).
Proof.
  split; [reflexivity|].
  destruct (Pool_Get_total σ) as (buf & σ0 & HGet).
  rewrite (DecompressStream_run _ σ buf σ0 HGet). cbn.
  eexists _, _, _. split; [reflexivity|]. split; [reflexivity|].
  unfold ReadAll, bufio_ReadAll. cbn [Reader].
  rewrite bind_run. unfold load_buf. rewrite lookup_upd_buf. reflexivity.
Qed.

(** Case analysis of a run of [DecompressStream] after [DecompressStream_run]:
    the peek's error, the two tests on the kind, the header. *)
Ltac decompress_cases archive :=
  cbv zeta;
  destruct (peek 10 archive).2 as [[|?]|];
  repeat match goal with
         | |- context [if ?k =? Uncompressed then _ else _] =>
             destruct (Z.eqb_spec k Uncompressed)
         | |- context [if ?k =? Gzip then _ else _] =>
             destruct (Z.eqb_spec k Gzip)
         | |- context [match (readHeader ?c archive).1 with _ => _ end] =>
             destruct (readHeader c archive).1
         end.

(** The kind of a returned stream is the detector's answer on the peek. *)
Lemma DecompressStream_compression archive σ w σ' :
  DecompressStream gz archive σ = Some ((Some w, None), σ') ->
  compression w = DetectCompression (peek 10 archive).1.
Proof.
  destruct (Pool_Get_total σ) as (buf & σ0 & HGet).
  rewrite (DecompressStream_run archive σ buf σ0 HGet).
  decompress_cases archive; intros [= <- <-]; reflexivity.
Qed.

(** C10. When DecompressStream succeeds, the kind the stream exposes is what
    DetectCompression answers on the peeked bytes; it is Uncompressed or
    Gzip; the stream reads from a gzip reader exactly when the kind is Gzip,
    that reader being a new object, and no gzip reader is made otherwise. *)
Theorem DecompressStream_kind archive σ r σ' :
  DecompressStream gz archive σ = Some ((r, None), σ') ->
  exists w, r = Some w
    /\ GetCompression w = DetectCompression (peek 10 archive).1
    /\ (GetCompression w = Uncompressed \/ GetCompression w = Gzip)
    /\ ((exists g, Reader w = R_gzip g) <-> GetCompression w = Gzip)
    /\ (GetCompression w = Gzip ->
          exists g, Reader w = R_gzip g /\ gzips σ !! g = None /\ is_Some (gzips σ' !! g))
    /\ (GetCompression w = Uncompressed -> gzips σ' = gzips σ).
Proof.
  destruct (Pool_Get_total σ) as (buf & σ0 & HGet).
  destruct (Pool_Get_frame σ buf σ0 HGet) as [_ Hgz].
  rewrite (DecompressStream_run archive σ buf σ0 HGet).
  pose proof (DetectCompression_range (peek 10 archive).1) as Hrange.
  assert (HUG : Uncompressed <> Gzip) by done.
  decompress_cases archive; intros [= <- <-]; try (destruct Hrange; done).
  all: eexists; split; [reflexivity|]; cbn [GetCompression compression Reader].
  all: split; [reflexivity|]; split; [done|].
  all: try (split; [split; [by intros [? [=]]|congruence]|];
            split; [congruence|]; intros _; cbn; by rewrite Hgz).
  all: split; [split; eauto|]; split; [|congruence]; intros _.
  all: eexists; split; [reflexivity|]; cbn [gzips upd_gzip upd_buf]; rewrite <- Hgz.
  all: split; [apply not_elem_of_dom, is_fresh|]; rewrite lookup_insert_eq; eauto.
Qed.

(** C2, as the code has it. When DecompressStream returns an error it returns
    no stream and puts nothing back: the pool is what the checkout left, and
    the reader that was checked out is still bound to a stream. With no
    reader listed twice in the pool, that reader is not in the pool. *)
Theorem DecompressStream_error_keeps_buffer archive σ r e σ' :
  DecompressStream gz archive σ = Some ((r, Some e), σ') ->
  r = None
  /\ exists buf σ0, Pool_Get σ = Some (buf, σ0)
       /\ bufioReader32KPool σ' = bufioReader32KPool σ0
       /\ (exists s, bufs σ' !! buf = Some {| rd := Some s |})
       /\ (NoDup (bufioReader32KPool σ) -> buf ∉ bufioReader32KPool σ').
Proof.
  destruct (Pool_Get_total σ) as (buf & σ0 & HGet).
  rewrite (DecompressStream_run archive σ buf σ0 HGet).
  decompress_cases archive; intros [= <- <- <-]; (split; [reflexivity|]).
  all: exists buf, σ0; split; [done|]; split; [reflexivity|].
  all: split; [eexists; apply lookup_upd_buf|].
  all: intros Hnd; apply (Pool_Get_NoDup σ buf σ0 HGet Hnd).
Qed.

(** C3, as the code has it. On a stream that DecompressStream returned with
    kind Gzip, Close leaves the gzip reader alone: in every state it returns
    no error, detaches the buffered reader from its stream, puts it on the
    pool, and changes no gzip reader. *)
Theorem Close_gzip_stream archive σ w σ1 :
  DecompressStream gz archive σ = Some ((Some w, None), σ1) ->
  GetCompression w = Gzip ->
  exists buf g,
    (exists σ0, Pool_Get σ = Some (buf, σ0))
    /\ Reader w = R_gzip g
    /\ gzips σ1 !! g = Some {| z_r := buf; z_err := None |}
    /\ forall σ2, exists σ3,
         Close w σ2 = Some (None, σ3)
         /\ bufs σ3 !! buf = Some {| rd := None |}
         /\ bufioReader32KPool σ3 = buf :: bufioReader32KPool σ2
         /\ gzips σ3 = gzips σ2.
Proof.
  destruct (Pool_Get_total σ) as (buf & σ0 & HGet).
  rewrite (DecompressStream_run archive σ buf σ0 HGet).
  assert (HUG : Uncompressed <> Gzip) by done.
  decompress_cases archive; intros [= <- <-]; cbn [GetCompression compression];
    intros Hkind; try congruence.
  all: exists buf; eexists; split; [eauto|]; split; [reflexivity|].
  all: split; [apply lookup_insert_eq|]; intros σ2; eexists.
  all: cbn [Close closer]; rewrite release_run; split; [reflexivity|].
  all: split; [apply lookup_upd_buf|]; done.
Qed.

(** C1, as the code has it. A payload that does not start with the bytes
    1F 8B 08, written through CompressStream for Uncompressed and handed to
    DecompressStream, comes back unchanged with kind Uncompressed. *)
Theorem roundtrip_Uncompressed_plain (P : list byte) (σ : state) :
  take 3 P <> [x1f; x8b; x08] -> roundtrip_Uncompressed gz P σ.
Proof.
  intros Hplain. unfold roundtrip_Uncompressed.
  assert (Hkind : DetectCompression (peek 10 (bytes_NewReader P)).1 = Uncompressed).
  { assert (Hsame : DetectCompression (peek 10 (bytes_NewReader P)).1 = DetectCompression P).
    { unfold peek. cbn [pending bytes_NewReader].
      destruct (10 <=? length P)%nat; cbn [fst]; [|done].
      apply DetectCompression_take. lia. }
    rewrite Hsame. destruct (DetectCompression_range P) as [|HG]; [done|].
    by apply DetectCompression_Gzip_iff in HG. }
  assert (Herr : (peek 10 (bytes_NewReader P)).2 = None
                 \/ (peek 10 (bytes_NewReader P)).2 = Some io_EOF).
  { unfold peek. cbn [pending final bytes_NewReader].
    destruct (10 <=? length P)%nat; auto. }
  destruct (Pool_Get_total σ) as (buf & σ0 & HGet).
  exists P. rewrite (DecompressStream_run _ σ buf σ0 HGet). cbv zeta.
  rewrite Hkind. change (Uncompressed =? Uncompressed) with true. cbv iota.
  eexists _, _, _. split; [reflexivity|].
  split; [destruct Herr as [-> | ->]; reflexivity|].
  split; [reflexivity|].
  unfold ReadAll, bufio_ReadAll. cbn [Reader].
  rewrite bind_run. unfold load_buf. rewrite lookup_upd_buf. reflexivity.
Qed.

End Adapter.

(** ** Concrete runs *)

Lemma roundtrip_Uncompressed_plain_witness :
  roundtrip_Uncompressed stored_codec [x68; x69] empty_state.
Proof. apply (roundtrip_Uncompressed_plain stored_codec [x68; x69] empty_state). simpl. discriminate. Defined.

(** C1 as stated fails: the three signature bytes, written uncompressed, do
    not come back as an Uncompressed stream, whatever the decoder and the
    state of the pool. *)
Lemma roundtrip_Uncompressed_counterexample :
  ~ exists gz σ, roundtrip_Uncompressed gz [x1f; x8b; x08] σ.
Proof.
  intros (gz & σ & out & w & σ1 & σ2 & Hout & Hrun & Hkind & _).
  injection Hout as <-.
  apply DecompressStream_compression in Hrun.
  unfold GetCompression in Hkind. rewrite Hkind in Hrun. discriminate Hrun.
Qed.

Lemma DecompressStream_error_keeps_buffer_witness :
  exists r e σ',
    DecompressStream stored_codec failing_reader empty_state = Some ((r, Some e), σ')
    /\ r = None
    /\ exists buf σ0, Pool_Get empty_state = Some (buf, σ0)
         /\ bufioReader32KPool σ' = bufioReader32KPool σ0
         /\ (exists s, bufs σ' !! buf = Some {| rd := Some s |})
         /\ (NoDup (bufioReader32KPool empty_state) -> buf ∉ bufioReader32KPool σ').
Proof.
  eexists _, _, _. split; [reflexivity|].
  eapply (DecompressStream_error_keeps_buffer stored_codec failing_reader empty_state).
  reflexivity.
Defined.

(** C2 as stated fails: a read failure at the peek, on an empty pool, leaves
    the pool empty, whatever the decoder. *)
Lemma released_on_error_counterexample :
  ~ exists gz, released_on_error gz failing_reader empty_state.
Proof.
  intros [gz Hrel].
  destruct (Hrel None (errorString "read failed")
              (upd_buf 0%nat {| rd := Some failing_reader |}
                 (upd_buf 0%nat {| rd := None |} empty_state)))
    as (buf & σ0 & _ & Hin).
  - reflexivity.
  - by apply elem_of_nil in Hin.
Qed.

Lemma Close_gzip_stream_witness :
  exists w σ1,
    DecompressStream stored_codec (bytes_NewReader truncated_gzip) empty_state
      = Some ((Some w, None), σ1)
    /\ GetCompression w = Gzip
    /\ exists buf g,
         (exists σ0, Pool_Get empty_state = Some (buf, σ0))
         /\ Reader w = R_gzip g
         /\ gzips σ1 !! g = Some {| z_r := buf; z_err := None |}
         /\ forall σ2, exists σ3,
              Close w σ2 = Some (None, σ3)
              /\ bufs σ3 !! buf = Some {| rd := None |}
              /\ bufioReader32KPool σ3 = buf :: bufioReader32KPool σ2
              /\ gzips σ3 = gzips σ2.
Proof.
  eexists _, _. split; [vm_compute; reflexivity|]. split; [reflexivity|].
  apply (Close_gzip_stream stored_codec (bytes_NewReader truncated_gzip) empty_state);
    vm_compute; reflexivity.
Defined.

(** C3 as stated fails: on a gzip header with no body the header is accepted
    and the first read ends in an unexpected end of stream, as with
    compress/gzip; the decoder's Close would report that error, and Close of
    the stream reports none. *)
Lemma Close_closes_decoder_counterexample :
  ~ Close_closes_decoder stored_codec (bytes_NewReader truncated_gzip) empty_state.
Proof.
  intros Hclaim.
  edestruct Hclaim as (g & z & HR & Hz & HC);
    [vm_compute; reflexivity | reflexivity | vm_compute; reflexivity |].
  injection HR as <-. vm_compute in Hz. injection Hz as <-.
  vm_compute in HC. discriminate HC.
Qed.

Lemma DecompressStream_kind_witness :
  exists r σ',
    DecompressStream stored_codec (bytes_NewReader truncated_gzip) empty_state
      = Some ((r, None), σ')
    /\ exists w, r = Some w
         /\ GetCompression w = DetectCompression (peek 10 (bytes_NewReader truncated_gzip)).1
         /\ (GetCompression w = Uncompressed \/ GetCompression w = Gzip)
         /\ ((exists g, Reader w = R_gzip g) <-> GetCompression w = Gzip)
         /\ (GetCompression w = Gzip ->
               exists g, Reader w = R_gzip g /\ gzips empty_state !! g = None
                         /\ is_Some (gzips σ' !! g))
         /\ (GetCompression w = Uncompressed -> gzips σ' = gzips empty_state).
Proof.
  eexists _, _. split; [vm_compute; reflexivity|].
  apply (DecompressStream_kind stored_codec (bytes_NewReader truncated_gzip) empty_state).
  vm_compute; reflexivity.
Defined.

(** * Further properties *)

(** ** Helper equations *)

Lemma gzip_signed_spec (b : list byte) :
  gzip_signed b = true <-> take 3 b = [x1f; x8b; x08].
Proof. unfold gzip_signed. rewrite bytes_Equal_eq. split; congruence. Qed.

Lemma take3_signature (b : list byte) :
  take 3 b = [x1f; x8b; x08] <-> exists rest, b = x1f :: x8b :: x08 :: rest.
Proof.
  split.
  - destruct b as [|b0 [|b1 [|b2 rest]]]; try discriminate.
    intros [= -> -> ->]. by exists rest.
  - by intros [rest ->].
Qed.

Lemma DetectCompression_signed (source : list byte) :
  DetectCompression source = if gzip_signed source then Gzip else Uncompressed.
Proof.
  destruct (gzip_signed source) eqn:Hs.
  - by apply DetectCompression_Gzip_iff, gzip_signed_spec.
  - destruct (DetectCompression_range source) as [|HG]; [done|].
    apply DetectCompression_Gzip_iff, gzip_signed_spec in HG. congruence.
Qed.

Lemma peek_kind (archive : io_Reader) :
  DetectCompression (peek 10 archive).1 = DetectCompression (pending archive).
Proof.
  unfold peek. destruct (10 <=? length (pending archive))%nat; cbn [fst]; [|done].
  apply DetectCompression_take. lia.
Qed.

Lemma peek_outcome (archive : io_Reader) :
  match peek_error archive with
  | Some e => exists msg, e = errorString msg /\ (peek 10 archive).2 = Some (errorString msg)
  | None => (peek 10 archive).2 = None \/ (peek 10 archive).2 = Some io_EOF
  end.
Proof.
  unfold peek_error, peek.
  destruct (Nat.leb_spec 10 (length (pending archive))),
           (Nat.ltb_spec (length (pending archive)) 10); try lia; cbn [snd]; auto.
  destruct (final archive); eauto.
Qed.

(** [DecompressStream] in terms of the archive: refused at the peek, handed
    to the decoder, or passed through. *)
Lemma DecompressStream_outcome gz archive σ buf σ0 :
  Pool_Get σ = Some (buf, σ0) ->
  let σ1 := upd_buf buf {| rd := Some archive |} σ0 in
  DecompressStream gz archive σ =
    match peek_error archive with
    | Some e => Some ((None, Some e), σ1)
    | None =>
        if gzip_signed (pending archive) then
          let σ2 := upd_buf buf {| rd := Some (readHeader gz archive).2 |} σ1 in
          match (readHeader gz archive).1 with
          | Some e => Some ((None, Some e), σ2)
          | None =>
              let g := fresh (dom (gzips σ2)) in
              Some ((Some {| Reader := R_gzip g; compression := Gzip;
                             closer := Some (release buf) |}, None),
                    upd_gzip g {| z_r := buf; z_err := None |} σ2)
          end
        else
          Some ((Some {| Reader := R_bufio buf; compression := Uncompressed;
                         closer := Some (release buf) |}, None), σ1)
    end.
Proof.
  intros HGet σ1. subst σ1.
  rewrite (DecompressStream_run gz archive σ buf σ0 HGet). cbv zeta.
  rewrite peek_kind, DetectCompression_signed.
  pose proof (peek_outcome archive) as Hpeek.
  destruct (peek_error archive) as [e|].
  - destruct Hpeek as (msg & -> & ->). reflexivity.
  - destruct Hpeek as [-> | ->]; destruct (gzip_signed (pending archive)); reflexivity.
Qed.

Lemma bufio_ReadAll_attached a s σ :
  bufs σ !! a = Some {| rd := Some s |} ->
  bufio_ReadAll a σ =
    Some ((pending s, hide_EOF (final s)),
          upd_buf a {| rd := Some {| pending := []; final := final s |} |} σ).
Proof.
  intros Hb. unfold bufio_ReadAll. rewrite bind_run. unfold load_buf. by rewrite Hb.
Qed.

Lemma gzip_ReadAll_fresh gz g a s σ :
  gzips σ !! g = Some {| z_r := a; z_err := None |} ->
  bufs σ !! a = Some {| rd := Some s |} ->
  gzip_ReadAll gz g σ =
    Some (((inflate gz s).1.1, hide_EOF (inflate gz s).1.2),
          upd_gzip g {| z_r := a; z_err := Some (inflate gz s).1.2 |}
            (upd_buf a {| rd := Some (inflate gz s).2 |} σ)).
Proof.
  intros Hg Hb. unfold gzip_ReadAll. rewrite bind_run. unfold load_gzip. rewrite Hg.
  cbn [z_err z_r]. rewrite bind_run. unfold load_buf. rewrite Hb. cbn [rd].
  destruct (inflate gz s) as [[out e] s']. reflexivity.
Qed.


(** ** The pool invariant *)









(** ** The detector *)

(** X2. DetectCompression answers Gzip exactly on the slices that start with
    the bytes 1F 8B 08 and Uncompressed exactly on the others. *)
Theorem DetectCompression_classifies (source : list byte) :
  (DetectCompression source = Gzip <->
     exists rest, source = x1f :: x8b :: x08 :: rest)
  /\ (DetectCompression source = Uncompressed <->
       ~ exists rest, source = x1f :: x8b :: x08 :: rest).
Proof.
  rewrite <- take3_signature, <- DetectCompression_Gzip_iff. split; [done|].
  destruct (DetectCompression_range source) as [-> | ->]; split; done.
Qed.

(** X3. The answer depends on the first three bytes only: two slices that
    agree on them are classified alike, whatever their lengths and tails. *)
Theorem DetectCompression_first_three (source source' : list byte) :
  take 3 source = take 3 source' ->
  DetectCompression source = DetectCompression source'.
Proof.
  intros Heq. rewrite !DetectCompression_signed. unfold gzip_signed. by rewrite Heq.
Qed.

Lemma DetectCompression_first_three_witness :
  DetectCompression [x1f; x8b; x08; x00; x01] = DetectCompression [x1f; x8b; x08].
Proof.
  apply (DetectCompression_first_three [x1f; x8b; x08; x00; x01] [x1f; x8b; x08]).
  reflexivity.
Defined.

(** ** The writer adapter *)

(** X4. CompressStream returns a stream exactly for Uncompressed and Gzip,
    and an error exactly when it returns no stream; for Gzip the stream is
    the gzip writer on the destination. *)
Theorem CompressStream_supported_iff (dest : io_Writer) (c : Compression) :
  (is_Some (CompressStream dest c).1 <-> c = Uncompressed \/ c = Gzip)
  /\ (is_Some (CompressStream dest c).1 <-> (CompressStream dest c).2 = None)
  /\ CompressStream dest Gzip = (Some (WC_gzip dest), None).
Proof.
  unfold CompressStream.
  destruct (Z.eqb_spec c Uncompressed) as [->|HU]; [|destruct (Z.eqb_spec c Gzip) as [->|HG]];
    cbn [fst snd]; (split; [|split; [|reflexivity]]); split; eauto.
  all: try (by intros [? [=]]); try discriminate.
  all: intros [|]; done.
Qed.


(** ** The reader adapter, by the content of the archive *)

(** X6. The kind a returned stream exposes is the detector's answer on the
    whole content of the archive, not only on what the peek returned: it is
    Gzip exactly when the archive starts with the bytes 1F 8B 08. *)
Theorem DecompressStream_kind_of_content gz archive σ w σ1 :
  DecompressStream gz archive σ = Some ((Some w, None), σ1) ->
  GetCompression w = DetectCompression (pending archive)
  /\ (GetCompression w = Gzip <->
      exists rest, pending archive = x1f :: x8b :: x08 :: rest).
Proof.
  intros Hrun. apply DecompressStream_compression in Hrun.
  unfold GetCompression. rewrite Hrun, peek_kind.
  split; [done|]. by rewrite DetectCompression_Gzip_iff, take3_signature.
Qed.

Lemma DecompressStream_kind_of_content_witness :
  exists w σ1,
    DecompressStream stored_codec (bytes_NewReader truncated_gzip) empty_state
      = Some ((Some w, None), σ1)
    /\ GetCompression w = DetectCompression (pending (bytes_NewReader truncated_gzip))
    /\ (GetCompression w = Gzip <->
        exists rest, pending (bytes_NewReader truncated_gzip) = x1f :: x8b :: x08 :: rest).
Proof.
  eexists _, _. split; [vm_compute; reflexivity|].
  eapply (DecompressStream_kind_of_content stored_codec
            (bytes_NewReader truncated_gzip) empty_state).
  vm_compute; reflexivity.
Defined.

(** X7. The error of DecompressStream is a function of the archive and the
    decoder, not of the pool: the error of the peek when fewer than ten bytes
    come before an error other than end-of-stream; otherwise the error of the
    gzip header when the archive starts with the signature; otherwise none.
    A stream is returned exactly when there is no error. *)
Theorem DecompressStream_reports_open_error gz archive σ :
  exists r σ1,
    DecompressStream gz archive σ = Some ((r, open_error gz archive), σ1)
    /\ (is_Some r <-> open_error gz archive = None).
Proof.
  destruct (Pool_Get_total σ) as (buf & σ0 & HGet).
  rewrite (DecompressStream_outcome gz archive σ buf σ0 HGet). cbv zeta.
  unfold open_error.
  destruct (peek_error archive); [|destruct (gzip_signed (pending archive));
    [destruct (readHeader gz archive).1|]]; eexists _, _; (split; [reflexivity|]).
  all: split; eauto; try discriminate; by intros [? [=]].
Qed.

(** X8. An archive that passes the peek and does not start with the gzip
    signature is passed through: the stream is Uncompressed and reading it
    to the end gives every byte of the archive, the peeked ones included,
    and the archive's own final error (none for end-of-stream). *)
Theorem DecompressStream_passthrough gz archive σ :
  peek_error archive = None ->
  take 3 (pending archive) <> [x1f; x8b; x08] ->
  exists w σ1 σ2,
    DecompressStream gz archive σ = Some ((Some w, None), σ1)
    /\ GetCompression w = Uncompressed
    /\ ReadAll gz w σ1 = Some ((pending archive, hide_EOF (final archive)), σ2).
Proof.
  intros Hpeek Hplain.
  assert (Hs : gzip_signed (pending archive) = false).
  { destruct (gzip_signed (pending archive)) eqn:Hs; [|done].
    by apply gzip_signed_spec in Hs. }
  destruct (Pool_Get_total σ) as (buf & σ0 & HGet).
  rewrite (DecompressStream_outcome gz archive σ buf σ0 HGet). cbv zeta.
  rewrite Hpeek, Hs.
  eexists _, _, _. split; [reflexivity|]. split; [reflexivity|].
  unfold ReadAll. cbn [Reader].
  by rewrite (bufio_ReadAll_attached buf archive) by apply lookup_upd_buf.
Qed.

Lemma DecompressStream_passthrough_witness :
  exists w σ1 σ2,
    DecompressStream stored_codec
      {| pending := [x68; x65; x6c; x6c; x6f; x20; x77; x6f; x72; x6c; x64];
         final := errorString "connection reset" |} empty_state
      = Some ((Some w, None), σ1)
    /\ GetCompression w = Uncompressed
    /\ ReadAll stored_codec w σ1
       = Some ((pending {| pending := [x68; x65; x6c; x6c; x6f; x20; x77; x6f; x72; x6c; x64];
                           final := errorString "connection reset" |},
                hide_EOF (final {| pending := [x68; x65; x6c; x6c; x6f; x20; x77; x6f; x72; x6c; x64];
                                   final := errorString "connection reset" |})), σ2).
Proof.
  apply (DecompressStream_passthrough stored_codec
           {| pending := [x68; x65; x6c; x6c; x6f; x20; x77; x6f; x72; x6c; x64];
              final := errorString "connection reset" |} empty_state).
  - reflexivity.
  - simpl. discriminate.
Defined.

(** X9. An archive that passes the peek, starts with the gzip signature and
    whose header the decoder accepts is handed to the decoder from its first
    byte: the stream is Gzip, reading it to the end gives what the decoder
    makes of the bytes after the header, and a further read gives no byte and
    the same error. *)
Theorem DecompressStream_gzip_content gz archive σ :
  peek_error archive = None ->
  take 3 (pending archive) = [x1f; x8b; x08] ->
  (readHeader gz archive).1 = None ->
  let body := (readHeader gz archive).2 in
  exists w σ1 σ2,
    DecompressStream gz archive σ = Some ((Some w, None), σ1)
    /\ GetCompression w = Gzip
    /\ ReadAll gz w σ1
       = Some (((inflate gz body).1.1, hide_EOF (inflate gz body).1.2), σ2)
    /\ ReadAll gz w σ2 = Some (([], hide_EOF (inflate gz body).1.2), σ2).
Proof.
  intros Hpeek Hsigned Hheader body. subst body.
  apply gzip_signed_spec in Hsigned.
  destruct (Pool_Get_total σ) as (buf & σ0 & HGet).
  rewrite (DecompressStream_outcome gz archive σ buf σ0 HGet). cbv zeta.
  rewrite Hpeek, Hsigned, Hheader.
  eexists _, _, _. split; [reflexivity|]. split; [reflexivity|].
  unfold ReadAll. cbn [Reader].
  erewrite gzip_ReadAll_fresh;
    [|apply lookup_insert_eq|cbn [bufs upd_gzip]; apply lookup_upd_buf].
  split; [reflexivity|].
  unfold gzip_ReadAll. rewrite bind_run. unfold load_gzip.
  cbn [gzips upd_gzip]. rewrite lookup_insert_eq. reflexivity.
Qed.

Lemma DecompressStream_gzip_content_witness :
  let archive := bytes_NewReader (truncated_gzip ++ [x68; x69]) in
  let body := (readHeader stored_codec archive).2 in
  exists w σ1 σ2,
    DecompressStream stored_codec archive empty_state = Some ((Some w, None), σ1)
    /\ GetCompression w = Gzip
    /\ ReadAll stored_codec w σ1
       = Some (((inflate stored_codec body).1.1,
                hide_EOF (inflate stored_codec body).1.2), σ2)
    /\ ReadAll stored_codec w σ2
       = Some (([], hide_EOF (inflate stored_codec body).1.2), σ2).
Proof.
  apply (DecompressStream_gzip_content stored_codec
           (bytes_NewReader (truncated_gzip ++ [x68; x69])) empty_state);
    reflexivity.
Defined.

(** ** The pool across calls *)







(** ** Detection and compression together *)

(** X13. Every kind the detector can answer is one CompressStream supports:
    compressing in the kind detected on any slice returns a stream and no
    error. *)
Theorem CompressStream_of_detected (dest : io_Writer) (source : list byte) :
  is_Some (CompressStream dest (DetectCompression source)).1
  /\ (CompressStream dest (DetectCompression source)).2 = None.
Proof.
  destruct (DetectCompression_range source) as [-> | ->]; split; by eauto.
Qed.
